(** * Forward kinematics of the four-joint arm (robot3D_basic.py)

    Shallow embedding of [RotationMatrix], [getLocalFrameMatrix],
    [forward_kinematics] and the numpy part of the animation loop of
    [main].  [createCoordinateFrameMesh] and the other vedo calls build
    and draw meshes and are not modelled.

    Numbers.  The program computes on numpy float64 values.  They are
    modelled here by the real numbers of the Standard Library, with
    [np.cos], [np.sin] and [np.pi] read as [cos], [sin] and [PI]: every
    statement below is about the exact-arithmetic reading of the program.

    Arrays.  A two-dimensional numpy array is a list of rows, a
    one-dimensional one a list of numbers.  The numpy operations the
    program calls check shapes and raise [ValueError]; a Python local that
    is read before it is bound raises [UnboundLocalError]; indexing a list
    past its end raises [IndexError]. *)

From Stdlib Require Import String Reals Lra List Arith Lia Bool.
Import ListNotations.

Open Scope R_scope.

(** ** Exceptions and results *)

Inductive exn : Set :=
| UnboundLocalError
| IndexError
| ValueError.

Inductive result (A : Type) : Type :=
| Ok (a : A)
| Raise (e : exn).

Arguments Ok {A} a.
Arguments Raise {A} e.

Definition bind {A B : Type} (m : result A) (k : A -> result B) : result B :=
  match m with
  | Ok a => k a
  | Raise e => Raise e
  end.

Notation "x <- m ;; k" := (bind m (fun x => k))
  (at level 61, m at next level, right associativity).

(** ** numpy arrays *)

Module Np.

Definition vector := list R.
Definition matrix := list (list R).

Definition nrows (M : matrix) : nat := length M.
Definition ncols (M : matrix) : nat := length (hd [] M).

(** [M.shape == (r, c)] *)
Definition has_shape (r c : nat) (M : matrix) : bool :=
  (length M =? r)%nat && forallb (fun row => (length row =? c)%nat) M.

(** [np.eye(n)] *)
Definition eye (n : nat) : matrix :=
  map (fun i => map (fun j => if (i =? j)%nat then 1 else 0) (seq 0 n))
      (seq 0 n).

(** [np.zeros((r, c))] *)
Definition zeros (r c : nat) : matrix := repeat (repeat 0 c) r.

(** [M[:, j]] *)
Definition column (j : nat) (M : matrix) : vector :=
  map (fun row => nth j row 0) M.

(** [M.T] *)
Definition transpose (M : matrix) : matrix :=
  map (fun j => column j M) (seq 0 (ncols M)).

Definition inner (u v : vector) : R :=
  fold_right (fun p acc => fst p * snd p + acc) 0 (combine u v).

(** The matrix product, without the shape check. *)
Definition matmul (A B : matrix) : matrix :=
  map (fun row => map (fun col => inner row col) (transpose B)) A.

(** [np.dot(A, B)] on two-dimensional arrays: the inner dimensions have to
    agree. *)
Definition dot (A B : matrix) : result matrix :=
  if (ncols A =? nrows B)%nat then Ok (matmul A B) else Raise ValueError.

(** Concatenation along the last axis of two-dimensional arrays. *)
Definition hstack (A B : matrix) : result matrix :=
  if (nrows A =? nrows B)%nat
  then Ok (map (fun p => fst p ++ snd p) (combine A B))
  else Raise ValueError.

(** Concatenation along the first axis of two-dimensional arrays. *)
Definition vstack (A B : matrix) : result matrix :=
  if (ncols A =? ncols B)%nat then Ok (A ++ B) else Raise ValueError.

(** [np.block([[A, B], [C, D]])]: each inner list is joined along the
    last axis, the results along the first. *)
Definition block (A B C D : matrix) : result matrix :=
  top <- hstack A B ;;
  bottom <- hstack C D ;;
  vstack top bottom.

(** [M[:r, :c]] *)
Definition slice (r c : nat) (M : matrix) : matrix :=
  map (firstn c) (firstn r M).

(** [M[:r, j]]; [M] has more than [j] columns wherever the program uses
    it. *)
Definition slice_col (r j : nat) (M : matrix) : vector :=
  column j (firstn r M).

(** [M[:r, :c] = B], for [B] of shape [(r, c)].  numpy would also
    broadcast a smaller [B]; the program only ever assigns a 3x3 array. *)
Definition set_slice (r c : nat) (M B : matrix) : result matrix :=
  if has_shape r c B
  then Ok (map (fun p => firstn c (snd p) ++ skipn c (fst p))
               (combine (firstn r M) B) ++ skipn r M)
  else Raise ValueError.

Definition set_nth (j : nat) (x : R) (row : list R) : list R :=
  firstn j row ++ x :: skipn (S j) row.

(** [M[:r, j] = v], for [v] of length [r]. *)
Definition set_slice_col (r j : nat) (M : matrix) (v : vector) : result matrix :=
  if (length v =? r)%nat
  then Ok (map (fun p => set_nth j (snd p) (fst p))
               (combine (firstn r M) v) ++ skipn r M)
  else Raise ValueError.

End Np.

Import Np.

(** [l[i]] on a Python list, for [i >= 0]. *)
Definition index {A : Type} (l : list A) (i : nat) : result A :=
  match nth_error l i with
  | Some a => Ok a
  | None => Raise IndexError
  end.

(** ** RotationMatrix *)

Definition radians (theta : R) : R := theta * PI / 180.

(** The local [rotation_matrix] is unbound on entry ([None]); the first
    [if] and the following [if]/[elif] pair run one after the other. *)
Definition RotationMatrix (theta : R) (axis_name : string) : result matrix :=
  let c := cos (radians theta) in
  let s := sin (radians theta) in
  let rotation_matrix : option matrix := None in
  let rotation_matrix :=
    if (axis_name =? "x")%string
    then Some [[1; 0; 0];
               [0; c; - s];
               [0; s; c]]
    else rotation_matrix in
  let rotation_matrix :=
    if (axis_name =? "y")%string
    then Some [[c; 0; s];
               [0; 1; 0];
               [- s; 0; c]]
    else if (axis_name =? "z")%string
    then Some [[c; - s; 0];
               [s; c; 0];
               [0; 0; 1]]
    else rotation_matrix in
  match rotation_matrix with
  | Some m => Ok m
  | None => Raise UnboundLocalError
  end.

(** ** getLocalFrameMatrix *)

Definition getLocalFrameMatrix (R_ij t_ij : matrix) : result matrix :=
  block R_ij t_ij (zeros 1 3) [[1]].

(** ** forward_kinematics *)

(** The body of the [for] loop, run on what is left of
    [enumerate(zip(Phi_list, axes))]; [i] is the counter of [enumerate]. *)
Fixpoint fk_loop (link_lengths : list R) (i : nat) (items : list (R * string))
    (T : matrix) (T_list : list matrix) : result (matrix * list matrix) :=
  match items with
  | [] => Ok (T, T_list)
  | (angle, axis) :: items' =>
      R_ <- RotationMatrix angle axis ;;
      T_new <- set_slice 3 3 (eye 4) R_ ;;
      L_i <- index link_lengths i ;;
      T_new <- set_slice_col 3 3 T_new [L_i; 0; 0] ;;
      T' <- dot T T_new ;;
      fk_loop link_lengths (S i) items' T' (T_list ++ [T'])
  end.

Definition axes : list string := ["z"; "y"; "x"; "z"]%string.

(** The state of the function when the loop is over: the running
    transform [T] and the list [T_list]. *)
Definition fk_poses (Phi_list : list R) (L1 L2 L3 L4 : R)
    : result (matrix * list matrix) :=
  let link_lengths := [L1; L2; L3; L4] in
  let T := eye 4 in
  let T_list := [T] in
  fk_loop link_lengths 0 (combine Phi_list axes) T T_list.

(** The locals [position] and [Transformation] are bound and never read;
    [e] is computed from the final [T] and not returned. *)
Definition forward_kinematics (Phi_list : list R) (L1 L2 L3 L4 : R)
    : result (matrix * matrix * matrix * matrix * vector) :=
  st <- fk_poses Phi_list L1 L2 L3 L4 ;;
  let T := fst st in
  let T_list := snd st in
  let e := slice_col 3 3 T in
  T_1 <- index T_list 1 ;;
  T_2 <- index T_list 2 ;;
  T_3 <- index T_list 3 ;;
  T_4 <- index T_list 4 ;;
  Ok (T_1, T_2, T_3, T_4, slice_col 3 3 (last T_list [])).

(** ** Vocabulary of the specification *)

(** The closed enumeration of elementary axes and the name the program
    uses for each. *)
Inductive Axis : Set := X | Y | Z.

Definition axis_name (a : Axis) : string :=
  match a with
  | X => "x"
  | Y => "y"
  | Z => "z"
  end.

Definition joint_axes : list Axis := [Z; Y; X; Z].

(** The rows the specification lists for each axis, for a cosine [c] and
    a sine [s]. *)
Definition rotation_rows (a : Axis) (c s : R) : matrix :=
  match a with
  | X => [[1; 0; 0]; [0; c; - s]; [0; s; c]]
  | Y => [[c; 0; s]; [0; 1; 0]; [- s; 0; c]]
  | Z => [[c; - s; 0]; [s; c; 0]; [0; 0; 1]]
  end.

Definition rotation_spec (theta : R) (a : Axis) : matrix :=
  rotation_rows a (cos (radians theta)) (sin (radians theta)).

(** [M[:r, c:]] *)
Definition slice_right (r c : nat) (M : matrix) : matrix :=
  map (skipn c) (firstn r M).

(** The block matrix with rotation block [Rm], translation block [t] and
    bottom row [0 0 0 1]. *)
Definition frame_of (Rm : matrix) (t : vector) : matrix :=
  map (fun p => fst p ++ [snd p]) (combine Rm t) ++ [[0; 0; 0; 1]].

(** The local transform of a joint: rotation about its axis, child origin
    at [(L, 0, 0)]. *)
Definition local_transform (theta : R) (a : Axis) (L : R) : matrix :=
  frame_of (rotation_spec theta a) [L; 0; 0].

(** The poses of a chain of joints [(angle, axis, length)] that starts
    from the running transform [T]: each one is the previous one times the
    joint's local transform, on the right. *)
Fixpoint chain (joints : list (R * Axis * R)) (T : matrix) : list matrix :=
  match joints with
  | [] => []
  | (theta, a, L) :: joints' =>
      let T' := matmul T (local_transform theta a L) in
      T' :: chain joints' T'
  end.

(** The joints the loop of [forward_kinematics] visits: [zip] stops at the
    shorter of the angle list and the four axes. *)
Definition joints_of (Phi_list : list R) (link_lengths : list R)
    : list (R * Axis * R) :=
  combine (combine Phi_list joint_axes) link_lengths.

(** Determinant of a 3x3 matrix, by expansion along the first row. *)
Definition det3 (M : matrix) : R :=
  match M with
  | [[a; b; c]; [d; e; f]; [g; h; i]] =>
      a * (e * i - f * h) - b * (d * i - f * g) + c * (d * h - e * g)
  | _ => 0
  end.

(** The chain with the product taken on the left instead, for
    comparison. *)
Fixpoint chain_left (joints : list (R * Axis * R)) (T : matrix) : list matrix :=
  match joints with
  | [] => []
  | (theta, a, L) :: joints' =>
      let T' := matmul (local_transform theta a L) T in
      T' :: chain_left joints' T'
  end.

(** What [zip(Phi_list, axes)] yields for an angle and an axis. *)
Definition item_of (j : R * Axis) : R * string := (fst j, axis_name (snd j)).

(** ** main: the frame matrices of one pass of the animation loop *)

(** The arrays one pass of the [for phi in range(0, 1000, 1)] loop of
    [main] computes.  The vedo calls (meshes, plotter) are left out; the
    fields [Frame1] to [Frame4] are the matrices handed to
    [apply_transform] for the mesh of that name, and [T_02] is the value
    the local of that name holds when the pass ends. *)
Record main_frames : Type := {
  Frame1 : matrix;
  Frame2 : matrix;
  Frame3 : matrix;
  Frame4 : matrix;
  T_02 : matrix
}.

(** [A @ B] on two-dimensional arrays. *)
Notation "A @@ B" := (bind A (fun M => dot M B))
  (at level 50, left associativity).

Definition main_loop_body (phi : R) : result main_frames :=
  let L1 := 5 in
  let L2 := 8 in
  let L3 := 5 in
  let phi1 := phi in
  let phi2 := phi / 2 in
  let phi3 := phi / 2 in
  let phi4 := (- phi) / 2 in
  R_01 <- RotationMatrix phi1 "y" ;;
  let p1 := [[3]; [2]; [0]] in
  let t_01 := p1 in
  T_01 <- getLocalFrameMatrix R_01 t_01 ;;
  let frame1 := T_01 in
  R_12 <- RotationMatrix phi2 "z" ;;
  let p2 := [[L1]; [0]; [0]] in
  let t_12 := p2 in
  T_12 <- getLocalFrameMatrix R_12 t_12 ;;
  T_02 <- Ok T_01 @@ T_12 ;;
  let frame2 := T_02 in
  R_23 <- RotationMatrix phi3 "y" ;;
  let p3 := [[L2]; [0]; [0]] in
  let t_23 := p3 in
  T_23 <- getLocalFrameMatrix R_23 t_23 ;;
  T_03 <- Ok T_01 @@ T_12 @@ T_23 ;;
  let frame3 := T_03 in
  R_34 <- RotationMatrix phi4 "z" ;;
  let p4 := [[L3]; [0]; [0]] in
  let t_34 := p4 in
  T_34 <- getLocalFrameMatrix R_34 t_34 ;;
  T_02 <- Ok T_01 @@ T_12 @@ T_23 @@ T_34 ;;
  let frame4 := T_34 in
  Ok {| Frame1 := frame1; Frame2 := frame2; Frame3 := frame3;
        Frame4 := frame4; T_02 := T_02 |}.

(** ** Vocabulary of rigid transforms *)

(** [M[:3, 3]], the origin of the frame [M]. *)
Definition origin (M : matrix) : vector := slice_col 3 3 M.

(** [M[:3, :3]], the rotation block of the frame [M]. *)
Definition rotation_block (M : matrix) : matrix := slice 3 3 M.

Definition orthonormal (Rm : matrix) : Prop :=
  matmul Rm (transpose Rm) = eye 3.

(** A rigid transform: 4x4, rotation block orthonormal, last row
    [0 0 0 1]. *)
Definition rigid (M : matrix) : Prop :=
  has_shape 4 4 M = true /\
  orthonormal (rotation_block M) /\
  nth 3 M [] = [0; 0; 0; 1].

Definition vsub (u v : vector) : vector :=
  map (fun p => fst p - snd p) (combine u v).

(** The square of the Euclidean distance between two points. *)
Definition dist2 (u v : vector) : R := inner (vsub u v) (vsub u v).

(** Entrywise sum of two arrays of one shape. *)
Definition madd (A B : matrix) : matrix :=
  map (fun p => map (fun q => fst q + snd q) (combine (fst p) (snd p)))
      (combine A B).

(** * Properties *)

Lemma last_cons {A : Type} (l : list A) : forall x d, last (x :: l) d = last l x.
Proof.
  induction l as [|y l IH]; intros x d.
  - reflexivity.
  - change (last (x :: y :: l) d) with (last (y :: l) d).
    now rewrite !IH.
Qed.

(** ** Shapes *)

Lemma has_shape_length r c M : has_shape r c M = true -> length M = r.
Proof.
  unfold has_shape. intros H.
  apply andb_true_iff in H as [H _]. now apply Nat.eqb_eq.
Qed.

Lemma has_shape_rows r c M row :
  has_shape r c M = true -> In row M -> length row = c.
Proof.
  unfold has_shape. intros H Hin.
  apply andb_true_iff in H as [_ H].
  rewrite forallb_forall in H. apply Nat.eqb_eq. now apply H.
Qed.

Lemma has_shape_ncols r c M :
  has_shape (S r) c M = true -> ncols M = c.
Proof.
  intros H. destruct M as [|row M].
  - discriminate.
  - unfold ncols. simpl. apply (has_shape_rows _ _ _ _ H). now left.
Qed.

Lemma transpose_length M : length (transpose M) = ncols M.
Proof. unfold transpose. now rewrite length_map, length_seq. Qed.

Lemma matmul_shape A B : has_shape (nrows A) (ncols B) (matmul A B) = true.
Proof.
  unfold has_shape, matmul, nrows.
  rewrite length_map, Nat.eqb_refl. simpl.
  apply forallb_forall. intros row Hin.
  apply in_map_iff in Hin as [r [<- _]].
  rewrite length_map, transpose_length. apply Nat.eqb_refl.
Qed.

Lemma dot_square n A B :
  has_shape (S n) (S n) A = true -> has_shape (S n) (S n) B = true ->
  dot A B = Ok (matmul A B) /\ has_shape (S n) (S n) (matmul A B) = true.
Proof.
  intros HA HB. unfold dot.
  pose proof (matmul_shape A B) as Hs.
  rewrite (has_shape_ncols _ _ _ HA).
  rewrite (has_shape_ncols _ _ _ HB) in Hs.
  unfold nrows in *.
  rewrite (has_shape_length _ _ _ HB), (has_shape_length _ _ _ HA) in *.
  now rewrite Nat.eqb_refl.
Qed.

(** ** The rotation builder and the local transform of the loop *)

Lemma RotationMatrix_axis theta a :
  RotationMatrix theta (axis_name a) = Ok (rotation_spec theta a).
Proof. destruct a; reflexivity. Qed.

Lemma rotation_spec_shape theta a : has_shape 3 3 (rotation_spec theta a) = true.
Proof. destruct a; reflexivity. Qed.

(** The two slice assignments on a fresh [np.eye(4)] build the block
    matrix of the rotation and [(L, 0, 0)]. *)
Lemma T_new_local_transform theta a L :
  (T_new <- set_slice 3 3 (eye 4) (rotation_spec theta a) ;;
   set_slice_col 3 3 T_new [L; 0; 0]) = Ok (local_transform theta a L).
Proof. destruct a; reflexivity. Qed.

Lemma local_transform_shape theta a L :
  has_shape 4 4 (local_transform theta a L) = true.
Proof. destruct a; reflexivity. Qed.

Lemma local_transform_blocks theta a L :
  slice 3 3 (local_transform theta a L) = rotation_spec theta a /\
  slice_col 3 3 (local_transform theta a L) = [L; 0; 0] /\
  nth 3 (local_transform theta a L) [] = [0; 0; 0; 1].
Proof. destruct a; repeat split; reflexivity. Qed.

(** ** The loop *)

Lemma fk_loop_step lls i theta a L items T T_list :
  nth_error lls i = Some L ->
  has_shape 4 4 T = true ->
  fk_loop lls i (item_of (theta, a) :: items) T T_list =
  fk_loop lls (S i) items (matmul T (local_transform theta a L))
          (T_list ++ [matmul T (local_transform theta a L)]).
Proof.
  intros HL HT. unfold item_of. cbn [fk_loop fst snd].
  rewrite RotationMatrix_axis. cbn [bind].
  pose proof (T_new_local_transform theta a L) as Hnew.
  destruct (set_slice 3 3 (eye 4) (rotation_spec theta a)) as [T_new|e] eqn:Hs;
    cbn [bind] in Hnew |- *; [|discriminate].
  unfold index. rewrite HL. cbn [bind]. rewrite Hnew. cbn [bind].
  destruct (dot_square 3 T (local_transform theta a L) HT
              (local_transform_shape theta a L)) as [-> _].
  reflexivity.
Qed.

Lemma chain_length joints T : length (chain joints T) = length joints.
Proof.
  revert T. induction joints as [|[[theta a] L] joints IH]; intros T; simpl.
  - reflexivity.
  - now rewrite IH.
Qed.

Lemma chain_shape joints T :
  has_shape 4 4 T = true ->
  Forall (fun M => has_shape 4 4 M = true) (chain joints T).
Proof.
  revert T. induction joints as [|[[theta a] L] joints IH]; intros T HT; simpl.
  - constructor.
  - pose proof (dot_square 3 T _ HT (local_transform_shape theta a L)) as [_ Hs].
    constructor; auto.
Qed.

(** The loop computes the chain: it never raises, the list [T_list] grows
    by the poses of the chain, and [T] ends as the last of them. *)
Lemma fk_loop_chain items : forall pre Ls T T_list,
  (length items <= length Ls)%nat ->
  has_shape 4 4 T = true ->
  fk_loop (pre ++ Ls) (length pre) (map item_of items) T T_list =
  Ok (last (chain (combine items Ls) T) T,
      T_list ++ chain (combine items Ls) T).
Proof.
  induction items as [|[theta a] items IH]; intros pre Ls T T_list Hlen HT.
  - simpl. now rewrite app_nil_r.
  - destruct Ls as [|L Ls]; [simpl in Hlen; lia|].
    cbn [map]. rewrite (fk_loop_step _ _ theta a L).
    + replace (pre ++ L :: Ls) with ((pre ++ [L]) ++ Ls)
        by now rewrite <- app_assoc.
      replace (S (length pre)) with (length (pre ++ [L]))
        by (rewrite length_app; simpl; lia).
      rewrite IH.
      * cbn [combine chain]. rewrite <- app_assoc. cbn [app].
        f_equal. f_equal.
        now rewrite last_cons.
      * simpl in Hlen. lia.
      * now apply (dot_square 3 T _ HT (local_transform_shape theta a L)).
    + rewrite nth_error_app2 by lia. now rewrite Nat.sub_diag.
    + exact HT.
Qed.

Lemma combine_axes Phi_list :
  combine Phi_list axes = map item_of (combine Phi_list joint_axes).
Proof.
  destruct Phi_list as [|a1 [|a2 [|a3 [|a4 rest]]]]; try reflexivity.
  now destruct rest.
Qed.

Lemma fk_poses_chain Phi_list L1 L2 L3 L4 :
  fk_poses Phi_list L1 L2 L3 L4 =
  Ok (last (chain (joints_of Phi_list [L1; L2; L3; L4]) (eye 4)) (eye 4),
      eye 4 :: chain (joints_of Phi_list [L1; L2; L3; L4]) (eye 4)).
Proof.
  unfold fk_poses, joints_of. rewrite combine_axes.
  apply (fk_loop_chain (combine Phi_list joint_axes) [] [L1; L2; L3; L4]).
  - rewrite length_combine. simpl. lia.
  - reflexivity.
Qed.

Lemma joints_of_length Phi_list L1 L2 L3 L4 :
  length (joints_of Phi_list [L1; L2; L3; L4]) = Nat.min (length Phi_list) 4.
Proof.
  unfold joints_of. rewrite !length_combine. simpl. lia.
Qed.

Lemma joints_of_firstn Phi_list Ls :
  joints_of (firstn 4 Phi_list) Ls = joints_of Phi_list Ls.
Proof.
  destruct Phi_list as [|a1 [|a2 [|a3 [|a4 rest]]]]; try reflexivity.
  unfold joints_of. simpl. now destruct rest.
Qed.

Lemma nth_combine {A B : Type} (l : list A) (l' : list B) :
  forall i a b, (i < length l)%nat -> (i < length l')%nat ->
  nth i (combine l l') (a, b) = (nth i l a, nth i l' b).
Proof.
  revert l'. induction l as [|x l IH]; intros [|y l'] i a b Hl Hl';
    simpl in *; try lia.
  destruct i as [|i]; [reflexivity|]. apply IH; lia.
Qed.

(** Each pose of a chain is the one before it (the start for the first)
    times the local transform of its joint. *)
Lemma chain_nth joints : forall T i d,
  (i < length joints)%nat ->
  nth i (chain joints T) [] =
  matmul (nth i (T :: chain joints T) [])
         (let '(theta, a, L) := nth i joints d in local_transform theta a L).
Proof.
  induction joints as [|[[theta a] L] joints IH]; intros T i d Hi;
    simpl in Hi; [lia|].
  destruct i as [|i].
  - reflexivity.
  - cbn [chain nth]. rewrite (IH _ i d) by lia. reflexivity.
Qed.

(** With four angles or more the function returns the four poses of the
    chain over the first four angles, and the translation of the last. *)
Lemma forward_kinematics_four a1 a2 a3 a4 rest L1 L2 L3 L4 :
  let T_1 := matmul (eye 4) (local_transform a1 Z L1) in
  let T_2 := matmul T_1 (local_transform a2 Y L2) in
  let T_3 := matmul T_2 (local_transform a3 X L3) in
  let T_4 := matmul T_3 (local_transform a4 Z L4) in
  fk_poses (a1 :: a2 :: a3 :: a4 :: rest) L1 L2 L3 L4 =
    Ok (T_4, [eye 4; T_1; T_2; T_3; T_4]) /\
  forward_kinematics (a1 :: a2 :: a3 :: a4 :: rest) L1 L2 L3 L4 =
    Ok (T_1, T_2, T_3, T_4, slice_col 3 3 T_4).
Proof.
  intros T_1 T_2 T_3 T_4.
  assert (H : fk_poses (a1 :: a2 :: a3 :: a4 :: rest) L1 L2 L3 L4 =
              Ok (T_4, [eye 4; T_1; T_2; T_3; T_4])).
  { rewrite fk_poses_chain, <- joints_of_firstn. reflexivity. }
  split; [exact H|].
  unfold forward_kinematics. rewrite H. reflexivity.
Qed.

(** With fewer than four angles the loop still runs to its end, and the
    return statement then indexes [T_list] past its end. *)
Lemma forward_kinematics_short Phi_list L1 L2 L3 L4 :
  (length Phi_list < 4)%nat ->
  forward_kinematics Phi_list L1 L2 L3 L4 = Raise IndexError.
Proof.
  intros Hlen. unfold forward_kinematics. rewrite fk_poses_chain.
  destruct Phi_list as [|a1 [|a2 [|a3 [|a4 rest]]]];
    try reflexivity.
  simpl in Hlen. lia.
Qed.

(** ** RotationMatrix *)

(** An axis name other than the three leaves [rotation_matrix] unbound. *)
Lemma RotationMatrix_unbound theta name :
  ~ In name ["x"; "y"; "z"]%string ->
  RotationMatrix theta name = Raise UnboundLocalError.
Proof.
  intros Hn. unfold RotationMatrix.
  destruct (String.eqb_spec name "x") as [->|_]; [exfalso; apply Hn; simpl; auto|].
  destruct (String.eqb_spec name "y") as [->|_]; [exfalso; apply Hn; simpl; auto|].
  destruct (String.eqb_spec name "z") as [->|_]; [exfalso; apply Hn; simpl; auto|].
  reflexivity.
Qed.

Lemma axis_name_cases name :
  In name ["x"; "y"; "z"]%string -> exists a, name = axis_name a.
Proof.
  intros [<-|[<-|[<-|[]]]]; [exists X | exists Y | exists Z]; reflexivity.
Qed.

(** C5: for every angle and every axis name among 'x', 'y' and 'z',
    RotationMatrix raises nothing and returns the 3x3 rotation matrix of
    that axis: [rotation_matrix] is bound when the return is reached.  For
    'x' the matrix bound by the first [if] comes out as it is: the
    [if]/[elif] pair that follows binds nothing. *)
Theorem RotationMatrix_no_error (theta : R) (name : string) :
  In name ["x"; "y"; "z"]%string ->
  (exists a, name = axis_name a /\
             RotationMatrix theta name = Ok (rotation_spec theta a) /\
             has_shape 3 3 (rotation_spec theta a) = true) /\
  RotationMatrix theta "x" =
    Ok [[1; 0; 0];
        [0; cos (radians theta); - sin (radians theta)];
        [0; sin (radians theta); cos (radians theta)]].
Proof.
  intros Hin. split; [|reflexivity].
  destruct (axis_name_cases name Hin) as [a ->].
  exists a. repeat split.
  - apply RotationMatrix_axis.
  - apply rotation_spec_shape.
Qed.

Lemma RotationMatrix_no_error_witness :
  In "x"%string ["x"; "y"; "z"]%string /\
  (exists a, "x"%string = axis_name a /\
             RotationMatrix 30 "x" = Ok (rotation_spec 30 a) /\
             has_shape 3 3 (rotation_spec 30 a) = true) /\
  RotationMatrix 30 "x" =
    Ok [[1; 0; 0];
        [0; cos (radians 30); - sin (radians 30)];
        [0; sin (radians 30); cos (radians 30)]].
Proof.
  assert (H : In "x"%string ["x"; "y"; "z"]%string) by (simpl; auto).
  split; [exact H | exact (RotationMatrix_no_error 30 "x" H)].
Defined.

(** C6: RotationMatrix turns the angle into radians, takes its cosine [c]
    and sine [s], and returns the rows [[1,0,0],[0,c,-s],[0,s,c]] for 'x',
    [[c,0,s],[0,1,0],[-s,0,c]] for 'y' and [[c,-s,0],[s,c,0],[0,0,1]] for
    'z'. *)
Theorem RotationMatrix_rows (theta : R) :
  let c := cos (theta * PI / 180) in
  let s := sin (theta * PI / 180) in
  RotationMatrix theta "x" = Ok [[1; 0; 0]; [0; c; - s]; [0; s; c]] /\
  RotationMatrix theta "y" = Ok [[c; 0; s]; [0; 1; 0]; [- s; 0; c]] /\
  RotationMatrix theta "z" = Ok [[c; - s; 0]; [s; c; 0]; [0; 0; 1]].
Proof. repeat split; reflexivity. Qed.

Lemma cos2_sin2 x : cos x * cos x + sin x * sin x = 1.
Proof. pose proof (sin2_cos2 x) as H. unfold Rsqr in H. lra. Qed.

Ltac list_eq := repeat (f_equal; try reflexivity).

(** C7: for every axis and every angle the matrix RotationMatrix returns
    is orthonormal (its product with its transpose is the identity) and
    has determinant 1. *)
Theorem RotationMatrix_orthonormal (theta : R) (a : Axis) :
  exists Rm,
    RotationMatrix theta (axis_name a) = Ok Rm /\
    dot Rm (transpose Rm) = Ok (eye 3) /\
    det3 Rm = 1.
Proof.
  exists (rotation_spec theta a). split; [apply RotationMatrix_axis|].
  pose proof (cos2_sin2 (radians theta)) as H.
  unfold rotation_spec.
  set (c := cos (radians theta)) in *. set (s := sin (radians theta)) in *.
  destruct a; cbn; split; try nra; f_equal; list_eq; nra.
Qed.

(** ** getLocalFrameMatrix *)

(** C8: for every 3x3 array [R_ij] and every 3x1 array [t_ij],
    getLocalFrameMatrix returns a 4x4 array whose top-left 3x3 block is
    [R_ij], whose top-right 3x1 block is [t_ij] and whose last row is
    [0, 0, 0, 1]; nothing is asked of [R_ij] but its shape. *)
Theorem getLocalFrameMatrix_blocks (R_ij t_ij : matrix) :
  has_shape 3 3 R_ij = true ->
  has_shape 3 1 t_ij = true ->
  exists T_ij,
    getLocalFrameMatrix R_ij t_ij = Ok T_ij /\
    has_shape 4 4 T_ij = true /\
    slice 3 3 T_ij = R_ij /\
    slice_right 3 3 T_ij = t_ij /\
    nth 3 T_ij [] = [0; 0; 0; 1].
Proof.
  intros HR Ht.
  destruct R_ij as [|[|r00 [|r01 [|r02 [|]]]]
                     [|[|r10 [|r11 [|r12 [|]]]]
                       [|[|r20 [|r21 [|r22 [|]]]] [|]]]]; try discriminate HR.
  destruct t_ij as [|[|t0 [|]] [|[|t1 [|]] [|[|t2 [|]] [|]]]];
    try discriminate Ht.
  eexists. repeat split.
Qed.

(** A matrix that is no rotation (its determinant is 8) goes through. *)
Lemma getLocalFrameMatrix_blocks_witness :
  det3 [[2; 0; 0]; [0; 2; 0]; [0; 0; 2]] = 8 /\
  exists T_ij,
    getLocalFrameMatrix [[2; 0; 0]; [0; 2; 0]; [0; 0; 2]] [[5]; [6]; [7]]
      = Ok T_ij /\
    has_shape 4 4 T_ij = true /\
    slice 3 3 T_ij = [[2; 0; 0]; [0; 2; 0]; [0; 0; 2]] /\
    slice_right 3 3 T_ij = [[5]; [6]; [7]] /\
    nth 3 T_ij [] = [0; 0; 0; 1].
Proof.
  split.
  - simpl. lra.
  - apply (getLocalFrameMatrix_blocks
             [[2; 0; 0]; [0; 2; 0]; [0; 0; 2]] [[5]; [6]; [7]]);
      reflexivity.
Defined.

(** The local transform of the loop is the frame getLocalFrameMatrix
    builds from the same rotation and the column [(L, 0, 0)]. *)
Lemma local_transform_getLocalFrameMatrix theta a L :
  getLocalFrameMatrix (rotation_spec theta a) [[L]; [0]; [0]] =
  Ok (local_transform theta a L).
Proof. destruct a; reflexivity. Qed.

(** ** forward_kinematics *)

(** C3: for four angles and four link lengths, the solver builds for the
    joints in order the local transforms with rotation blocks
    RotationMatrix(angle, axis) for the axes z, y, x, z and translation
    blocks (L_i, 0, 0); it multiplies the running transform by each on the
    right, from the identity, and appends every product to [T_list]; it
    returns the four products and the translation of the last. *)
Theorem forward_kinematics_right_multiplies (a1 a2 a3 a4 L1 L2 L3 L4 : R) :
  exists A1 A2 A3 A4 : matrix,
    (RotationMatrix a1 "z" = Ok (slice 3 3 A1) /\ slice_col 3 3 A1 = [L1; 0; 0]) /\
    (RotationMatrix a2 "y" = Ok (slice 3 3 A2) /\ slice_col 3 3 A2 = [L2; 0; 0]) /\
    (RotationMatrix a3 "x" = Ok (slice 3 3 A3) /\ slice_col 3 3 A3 = [L3; 0; 0]) /\
    (RotationMatrix a4 "z" = Ok (slice 3 3 A4) /\ slice_col 3 3 A4 = [L4; 0; 0]) /\
    Forall (fun A => has_shape 4 4 A = true /\ nth 3 A [] = [0; 0; 0; 1])
           [A1; A2; A3; A4] /\
    let T_0 := eye 4 in
    let T_1 := matmul T_0 A1 in
    let T_2 := matmul T_1 A2 in
    let T_3 := matmul T_2 A3 in
    let T_4 := matmul T_3 A4 in
    (dot T_0 A1 = Ok T_1 /\ dot T_1 A2 = Ok T_2 /\
     dot T_2 A3 = Ok T_3 /\ dot T_3 A4 = Ok T_4) /\
    fk_poses [a1; a2; a3; a4] L1 L2 L3 L4 =
      Ok (T_4, [T_0; T_1; T_2; T_3; T_4]) /\
    forward_kinematics [a1; a2; a3; a4] L1 L2 L3 L4 =
      Ok (T_1, T_2, T_3, T_4, slice_col 3 3 T_4).
Proof.
  exists (local_transform a1 Z L1), (local_transform a2 Y L2),
         (local_transform a3 X L3), (local_transform a4 Z L4).
  repeat match goal with |- (_ /\ _) /\ _ => split; [split; reflexivity|] end.
  split.
  { repeat constructor. }
  intros T_0 T_1 T_2 T_3 T_4.
  assert (H0 : has_shape 4 4 T_0 = true) by reflexivity.
  destruct (dot_square 3 T_0 _ H0 (local_transform_shape a1 Z L1)) as [D1 H1].
  destruct (dot_square 3 T_1 _ H1 (local_transform_shape a2 Y L2)) as [D2 H2].
  destruct (dot_square 3 T_2 _ H2 (local_transform_shape a3 X L3)) as [D3 H3].
  destruct (dot_square 3 T_3 _ H3 (local_transform_shape a4 Z L4)) as [D4 _].
  split; [repeat split; assumption|].
  apply (forward_kinematics_four a1 a2 a3 a4 [] L1 L2 L3 L4).
Qed.

(** The order of the product matters: on the left instead, the second
    pose of the chain for the angles 90, 0 would sit elsewhere. *)
Lemma left_multiplication_differs :
  nth 1 (chain [(90, Z, 1); (0, Y, 1)] (eye 4)) [] <>
  nth 1 (chain_left [(90, Z, 1); (0, Y, 1)] (eye 4)) [].
Proof.
  intros H. apply (f_equal (fun M => nth 3 (nth 0 M []) 0)) in H.
  cbn in H.
  replace (radians 90) with (PI / 2) in H by (unfold radians; field).
  replace (radians 0) with 0 in H by (unfold radians; field).
  rewrite ?cos_PI2, ?sin_PI2, ?cos_0, ?sin_0 in H. lra.
Qed.

(** C4: the list [T_list] the loop leaves starts with the 4x4 identity,
    has one more entry per joint visited, and every later entry is the
    entry before it times the local transform of its joint. *)
Theorem pose_invariant (Phi_list : list R) (L1 L2 L3 L4 : R) :
  exists T T_list,
    fk_poses Phi_list L1 L2 L3 L4 = Ok (T, T_list) /\
    nth_error T_list 0 = Some (eye 4) /\
    length T_list = S (Nat.min (length Phi_list) 4) /\
    T = last T_list [] /\
    forall i, (1 <= i < length T_list)%nat ->
      nth i T_list [] =
      matmul (nth (i - 1) T_list [])
             (local_transform (nth (i - 1) Phi_list 0)
                              (nth (i - 1) joint_axes Z)
                              (nth (i - 1) [L1; L2; L3; L4] 0)).
Proof.
  set (joints := joints_of Phi_list [L1; L2; L3; L4]).
  exists (last (chain joints (eye 4)) (eye 4)), (eye 4 :: chain joints (eye 4)).
  pose proof (joints_of_length Phi_list L1 L2 L3 L4) as Hlen.
  fold joints in Hlen.
  split; [apply fk_poses_chain|].
  split; [reflexivity|].
  split; [simpl; now rewrite chain_length, Hlen|].
  split; [now rewrite last_cons|].
  intros [|k] Hi; [lia|].
  simpl in Hi. rewrite chain_length, Hlen in Hi.
  replace (S k - 1)%nat with k by lia.
  change (nth (S k) (eye 4 :: chain joints (eye 4)) [])
    with (nth k (chain joints (eye 4)) []).
  rewrite (chain_nth joints (eye 4) k (0, Z, 0)) by lia.
  f_equal. unfold joints, joints_of.
  rewrite nth_combine, nth_combine; try reflexivity;
    rewrite ?length_combine; simpl; lia.
Qed.

Lemma pose_invariant_witness :
  exists T T_list,
    fk_poses [45; 30] 4 3 2 2 = Ok (T, T_list) /\
    nth_error T_list 0 = Some (eye 4) /\
    length T_list = 3%nat /\
    nth 1 T_list [] = matmul (nth 0 T_list []) (local_transform 45 Z 4) /\
    nth 2 T_list [] = matmul (nth 1 T_list []) (local_transform 30 Y 3).
Proof.
  destruct (pose_invariant [45; 30] 4 3 2 2)
    as [T [T_list [Hp [H0 [Hlen [_ Hstep]]]]]].
  exists T, T_list. repeat split; try assumption.
  - apply (Hstep 1%nat). rewrite Hlen. simpl. lia.
  - apply (Hstep 2%nat). rewrite Hlen. simpl. lia.
Defined.

(** C9: an angle sequence of more than four entries raises nothing, and
    what forward_kinematics returns for it is what it returns for its first
    four entries. *)
Theorem extra_angles_ignored (Phi_list : list R) (L1 L2 L3 L4 : R) :
  (4 < length Phi_list)%nat ->
  forward_kinematics Phi_list L1 L2 L3 L4 =
    forward_kinematics (firstn 4 Phi_list) L1 L2 L3 L4 /\
  exists v, forward_kinematics Phi_list L1 L2 L3 L4 = Ok v.
Proof.
  intros Hlen.
  destruct Phi_list as [|a1 [|a2 [|a3 [|a4 rest]]]]; simpl in Hlen; try lia.
  cbn [firstn].
  destruct (forward_kinematics_four a1 a2 a3 a4 rest L1 L2 L3 L4) as [_ ->].
  destruct (forward_kinematics_four a1 a2 a3 a4 [] L1 L2 L3 L4) as [_ ->].
  split; [reflexivity|eexists; reflexivity].
Qed.

Lemma extra_angles_ignored_witness :
  forward_kinematics [45; 30; 60; 20; 10; 70] 4 3 2 2 =
    forward_kinematics [45; 30; 60; 20] 4 3 2 2 /\
  exists v, forward_kinematics [45; 30; 60; 20; 10; 70] 4 3 2 2 = Ok v.
Proof.
  apply (extra_angles_ignored [45; 30; 60; 20; 10; 70] 4 3 2 2).
  simpl. lia.
Defined.

(** C10: whenever forward_kinematics returns (with four angles or more),
    the translation of the first pose is (L1, 0, 0), whatever the
    angles. *)
Theorem first_pose_translation (Phi_list : list R) (L1 L2 L3 L4 : R) :
  (4 <= length Phi_list)%nat ->
  exists T_1 T_2 T_3 T_4 e,
    forward_kinematics Phi_list L1 L2 L3 L4 = Ok (T_1, T_2, T_3, T_4, e) /\
    slice_col 3 3 T_1 = [L1; 0; 0].
Proof.
  intros Hlen.
  destruct Phi_list as [|a1 [|a2 [|a3 [|a4 rest]]]]; simpl in Hlen; try lia.
  destruct (forward_kinematics_four a1 a2 a3 a4 rest L1 L2 L3 L4) as [_ H].
  cbv zeta in H. do 5 eexists. split; [exact H|].
  cbn. list_eq; ring.
Qed.

Lemma first_pose_translation_witness :
  exists T_1 T_2 T_3 T_4 e,
    forward_kinematics [45; 30; 60; 20] 4 3 2 2 = Ok (T_1, T_2, T_3, T_4, e) /\
    slice_col 3 3 T_1 = [4; 0; 0].
Proof.
  apply (first_pose_translation [45; 30; 60; 20] 4 3 2 2).
  simpl. lia.
Defined.

(** C2, as the code has it: with fewer than four angles
    forward_kinematics raises IndexError and returns nothing; the loop has
    by then run over every angle supplied and [T_list] holds a pose for
    each, so the error comes from the return statement. *)
Theorem too_few_angles_IndexError (Phi_list : list R) (L1 L2 L3 L4 : R) :
  (length Phi_list < 4)%nat ->
  forward_kinematics Phi_list L1 L2 L3 L4 = Raise IndexError /\
  exists T T_list,
    fk_poses Phi_list L1 L2 L3 L4 = Ok (T, T_list) /\
    length T_list = S (length Phi_list).
Proof.
  intros Hlen. split; [now apply forward_kinematics_short|].
  do 2 eexists. split; [apply fk_poses_chain|].
  simpl. rewrite chain_length, joints_of_length. lia.
Qed.

Lemma too_few_angles_IndexError_witness :
  forward_kinematics [45; 30; 60] 4 3 2 2 = Raise IndexError /\
  exists T T_list,
    fk_poses [45; 30; 60] 4 3 2 2 = Ok (T, T_list) /\
    length T_list = 4%nat.
Proof.
  apply (too_few_angles_IndexError [45; 30; 60] 4 3 2 2).
  simpl. lia.
Defined.

(** C2 does not hold as stated: five angles against the four axes are
    not rejected, and with three angles the three poses are computed
    before anything is raised. *)
Lemma mismatch_not_rejected :
  length [45; 30; 60; 20; 10] <> length axes /\
  (exists v, forward_kinematics [45; 30; 60; 20; 10] 4 3 2 2 = Ok v) /\
  length [45; 30; 60] <> length axes /\
  (exists T T_1 T_2 T_3,
     fk_poses [45; 30; 60] 4 3 2 2 = Ok (T, [eye 4; T_1; T_2; T_3])).
Proof.
  split; [simpl; lia|]. split.
  - destruct (forward_kinematics_four 45 30 60 20 [10] 4 3 2 2) as [_ H].
    eexists. exact H.
  - split; [simpl; lia|].
    do 4 eexists. rewrite fk_poses_chain. reflexivity.
Qed.

(** ** The scenario with angles 90, 0, 0, 0 and unit links *)

Lemma radians_90 : radians 90 = PI / 2.
Proof. unfold radians. field. Qed.

Lemma radians_0 : radians 0 = 0.
Proof. unfold radians. field. Qed.

Ltac trig_values :=
  rewrite ?radians_90, ?radians_0, ?cos_PI2, ?sin_PI2, ?cos_0, ?sin_0.

(** The origins of the four frames: the first link lies along world x
    whatever the first angle is, the three that follow along world y. *)
Lemma scenario_90_origins :
  let T_1 := matmul (eye 4) (local_transform 90 Z 1) in
  let T_2 := matmul T_1 (local_transform 0 Y 1) in
  let T_3 := matmul T_2 (local_transform 0 X 1) in
  let T_4 := matmul T_3 (local_transform 0 Z 1) in
  slice_col 3 3 T_1 = [1; 0; 0] /\
  slice_col 3 3 T_2 = [1; 1; 0] /\
  slice_col 3 3 T_3 = [1; 2; 0] /\
  slice_col 3 3 T_4 = [1; 3; 0].
Proof.
  cbn. trig_values. repeat split; list_eq; lra.
Qed.

(** C1, as the code has it: for the angles 90, 0, 0, 0 and unit link
    lengths the end-effector position returned is (1, 3, 0), and the
    origins of the four poses are (1,0,0), (1,1,0), (1,2,0), (1,3,0): the
    first link lies along world x, and the 90-degree turn of the first
    joint about z sends the three links after it along world y. *)
Theorem scenario_90_end_effector :
  exists T_1 T_2 T_3 T_4,
    forward_kinematics [90; 0; 0; 0] 1 1 1 1 =
      Ok (T_1, T_2, T_3, T_4, [1; 3; 0]) /\
    slice_col 3 3 T_1 = [1; 0; 0] /\
    slice_col 3 3 T_2 = [1; 1; 0] /\
    slice_col 3 3 T_3 = [1; 2; 0] /\
    slice_col 3 3 T_4 = [1; 3; 0].
Proof.
  destruct (forward_kinematics_four 90 0 0 0 [] 1 1 1 1) as [_ H].
  destruct scenario_90_origins as [H1 [H2 [H3 H4]]].
  cbv zeta in H, H1, H2, H3, H4.
  rewrite H4 in H. do 4 eexists. split; [exact H|].
  repeat split; assumption.
Qed.

(** C1 does not hold as stated: the position returned is not (0, 4, 0). *)
Lemma scenario_90_not_0_4_0 :
  ~ exists T_1 T_2 T_3 T_4,
      forward_kinematics [90; 0; 0; 0] 1 1 1 1 =
        Ok (T_1, T_2, T_3, T_4, [0; 4; 0]).
Proof.
  intros [T_1 [T_2 [T_3 [T_4 Hfk]]]].
  destruct (forward_kinematics_four 90 0 0 0 [] 1 1 1 1) as [_ H].
  destruct scenario_90_origins as [_ [_ [_ H4]]].
  cbv zeta in H, H4. rewrite H4, Hfk in H.
  injection H as _ _ _ _ Hx. lra.
Qed.

(** * Further properties *)

(** Splits an equation between arrays into the equations between their
    entries. *)
Ltac rows_eq :=
  repeat match goal with
         | |- Ok _ = Ok _ => apply f_equal
         | |- (_, _) = (_, _) => apply f_equal2
         | |- _ :: _ = _ :: _ => apply f_equal2
         | |- @nil _ = @nil _ => reflexivity
         end.

(** ** RotationMatrix *)

(** An axis name other than 'x', 'y' and 'z' (the comparison is exact, so
    'X' is one) makes RotationMatrix raise UnboundLocalError at its return,
    whatever the angle; no matrix is returned. *)
Theorem RotationMatrix_unknown_axis (theta : R) (name : string) :
  name <> "x"%string -> name <> "y"%string -> name <> "z"%string ->
  RotationMatrix theta name = Raise UnboundLocalError.
Proof.
  intros Hx Hy Hz. unfold RotationMatrix.
  destruct (String.eqb_spec name "x") as [E|_]; [contradiction|].
  destruct (String.eqb_spec name "y") as [E|_]; [contradiction|].
  destruct (String.eqb_spec name "z") as [E|_]; [contradiction|].
  reflexivity.
Qed.

Lemma RotationMatrix_unknown_axis_witness :
  RotationMatrix 30 "X" = Raise UnboundLocalError.
Proof.
  apply (RotationMatrix_unknown_axis 30 "X"); discriminate.
Defined.

(** A rotation by 0 degrees is the 3x3 identity, for each axis. *)
Theorem RotationMatrix_zero (a : Axis) :
  RotationMatrix 0 (axis_name a) = Ok (eye 3).
Proof.
  rewrite RotationMatrix_axis. unfold rotation_spec.
  rewrite radians_0, cos_0, sin_0.
  destruct a; cbn; rows_eq; lra.
Qed.

Lemma radians_plus alpha beta :
  radians (alpha + beta) = radians alpha + radians beta.
Proof. unfold radians. field. Qed.

Lemma radians_opp theta : radians (- theta) = - radians theta.
Proof. unfold radians. field. Qed.

(** Two rotations about one axis compose to the rotation by the sum of the
    angles: [np.dot] of the two matrices is the matrix of the sum. *)
Theorem RotationMatrix_compose (alpha beta : R) (a : Axis) :
  exists A B C,
    RotationMatrix alpha (axis_name a) = Ok A /\
    RotationMatrix beta (axis_name a) = Ok B /\
    RotationMatrix (alpha + beta) (axis_name a) = Ok C /\
    dot A B = Ok C.
Proof.
  exists (rotation_spec alpha a), (rotation_spec beta a),
         (rotation_spec (alpha + beta) a).
  repeat split; try apply RotationMatrix_axis.
  unfold rotation_spec. rewrite radians_plus, cos_plus, sin_plus.
  destruct a; cbn; rows_eq; ring.
Qed.

(** The rotation by the opposite angle is the transpose, and undoes the
    rotation: the product of the two is the identity. *)
Theorem RotationMatrix_inverse (theta : R) (a : Axis) :
  exists A B,
    RotationMatrix theta (axis_name a) = Ok A /\
    RotationMatrix (- theta) (axis_name a) = Ok B /\
    B = transpose A /\
    dot A B = Ok (eye 3) /\
    dot B A = Ok (eye 3).
Proof.
  exists (rotation_spec theta a), (rotation_spec (- theta) a).
  repeat split; try apply RotationMatrix_axis;
    unfold rotation_spec; rewrite radians_opp, cos_neg, sin_neg;
    pose proof (cos2_sin2 (radians theta)) as H;
    set (c := cos (radians theta)) in *; set (s := sin (radians theta)) in *;
    destruct a; cbn; rows_eq; nra.
Qed.

(** RotationMatrix reads its angle through the cosine and sine only. *)
Lemma RotationMatrix_same_trig theta theta' name :
  cos (radians theta') = cos (radians theta) ->
  sin (radians theta') = sin (radians theta) ->
  RotationMatrix theta' name = RotationMatrix theta name.
Proof. intros Hc Hs. unfold RotationMatrix. now rewrite Hc, Hs. Qed.

Lemma RotationMatrix_turns theta theta' name (k : nat) :
  theta' = theta + 360 * INR k ->
  RotationMatrix theta' name = RotationMatrix theta name.
Proof.
  intros ->.
  assert (E : radians (theta + 360 * INR k) = radians theta + 2 * INR k * PI)
    by (unfold radians; field).
  apply RotationMatrix_same_trig; rewrite E;
    [apply cos_period|apply sin_period].
Qed.

(** Angles are not reduced modulo 360, yet a full turn more gives the
    same matrix (and the same error for a name that is no axis). *)
Theorem RotationMatrix_full_turn (theta : R) (name : string) :
  RotationMatrix (theta + 360) name = RotationMatrix theta name.
Proof.
  apply (RotationMatrix_turns theta _ name 1). simpl. ring.
Qed.

(** ** getLocalFrameMatrix *)

Lemma hstack_shape A : forall r c c' B,
  has_shape r c A = true -> has_shape r c' B = true ->
  has_shape r (c + c') (map (fun p => fst p ++ snd p) (combine A B)) = true.
Proof.
  induction A as [|row A IH]; intros r c c' B HA HB.
  - pose proof (has_shape_length _ _ _ HA) as <-. reflexivity.
  - destruct r as [|r]; [discriminate|].
    destruct B as [|row' B]; [discriminate|].
    unfold has_shape in *. simpl in *.
    apply andb_true_iff in HA as [HlA HA].
    apply andb_true_iff in HA as [Hrow HA].
    apply andb_true_iff in HB as [HlB HB].
    apply andb_true_iff in HB as [Hrow' HB].
    specialize (IH r c c' B).
    rewrite HlA, HA, HlB, HB in IH. specialize (IH eq_refl eq_refl).
    apply andb_true_iff in IH as [Hl IH].
    rewrite length_app.
    apply Nat.eqb_eq in Hrow, Hrow'. rewrite Hrow, Hrow', Nat.eqb_refl.
    simpl. now rewrite Hl, IH.
Qed.

(** getLocalFrameMatrix checks shapes only through [np.block]: for a
    non-empty [R_ij] it returns (an array of four columns, one row more
    than [R_ij]) exactly when [t_ij] has as many rows as [R_ij] and their
    column counts add up to 4; in every other case it raises
    ValueError. *)
Theorem getLocalFrameMatrix_shapes (r c r' c' : nat) (R_ij t_ij : matrix) :
  has_shape (S r) c R_ij = true ->
  has_shape r' c' t_ij = true ->
  (r' = S r /\ (c + c' = 4)%nat ->
   exists T_ij, getLocalFrameMatrix R_ij t_ij = Ok T_ij /\
                has_shape (S (S r)) 4 T_ij = true) /\
  (~ (r' = S r /\ (c + c' = 4)%nat) ->
   getLocalFrameMatrix R_ij t_ij = Raise ValueError).
Proof.
  intros HR Ht.
  unfold getLocalFrameMatrix, block, hstack, nrows.
  rewrite (has_shape_length _ _ _ HR), (has_shape_length _ _ _ Ht).
  destruct (Nat.eqb_spec (S r) r') as [<-|Hr].
  - pose proof (hstack_shape _ _ _ _ _ HR Ht) as Htop.
    cbn [bind zeros repeat length Nat.eqb combine map fst snd app].
    unfold vstack. rewrite (has_shape_ncols _ _ _ Htop).
    cbn [ncols hd length].
    destruct (Nat.eqb_spec (c + c') 4) as [Hc|Hc].
    + split; [|intros Hn; exfalso; apply Hn; auto].
      intros _. eexists. split; [reflexivity|].
      rewrite Hc in Htop. unfold has_shape in *.
      apply andb_true_iff in Htop as [Hl Hrows].
      rewrite length_app, forallb_app, Hrows.
      apply Nat.eqb_eq in Hl. rewrite Hl. simpl.
      replace (r + 1)%nat with (S r) by lia. now rewrite Nat.eqb_refl.
    + split; [intros [_ Hc']; contradiction|reflexivity].
  - cbn [bind]. split; [intros [Hr' _]; congruence|reflexivity].
Qed.

Lemma getLocalFrameMatrix_shapes_witness :
  (exists T_ij,
     getLocalFrameMatrix [[1; 2; 3]; [4; 5; 6]] [[7]; [8]] = Ok T_ij /\
     has_shape 3 4 T_ij = true) /\
  getLocalFrameMatrix [[1; 0; 0]; [0; 1; 0]; [0; 0; 1]] [[3; 2; 0]]
    = Raise ValueError.
Proof.
  split.
  - apply (getLocalFrameMatrix_shapes 1 3 2 1 [[1; 2; 3]; [4; 5; 6]] [[7]; [8]]);
      [reflexivity | reflexivity | split; reflexivity].
  - apply (getLocalFrameMatrix_shapes 2 3 1 3
             [[1; 0; 0]; [0; 1; 0]; [0; 0; 1]] [[3; 2; 0]]);
      [reflexivity | reflexivity | intros [H _]; discriminate H].
Defined.

(** Frames compose as rigid motions do: the product of the frames of
    [(R1, t1)] and [(R2, t2)] is the frame of [(R1 R2, R1 t2 + t1)]. *)
Theorem getLocalFrameMatrix_compose (R1 t1 R2 t2 : matrix) :
  has_shape 3 3 R1 = true -> has_shape 3 1 t1 = true ->
  has_shape 3 3 R2 = true -> has_shape 3 1 t2 = true ->
  exists T1 T2 T12,
    getLocalFrameMatrix R1 t1 = Ok T1 /\
    getLocalFrameMatrix R2 t2 = Ok T2 /\
    dot T1 T2 = Ok T12 /\
    getLocalFrameMatrix (matmul R1 R2) (madd (matmul R1 t2) t1) = Ok T12.
Proof.
  intros HR1 Ht1 HR2 Ht2.
  destruct R1 as [|[|a00 [|a01 [|a02 [|]]]]
                   [|[|a10 [|a11 [|a12 [|]]]]
                     [|[|a20 [|a21 [|a22 [|]]]] [|]]]]; try discriminate HR1.
  destruct R2 as [|[|b00 [|b01 [|b02 [|]]]]
                   [|[|b10 [|b11 [|b12 [|]]]]
                     [|[|b20 [|b21 [|b22 [|]]]] [|]]]]; try discriminate HR2.
  destruct t1 as [|[|u0 [|]] [|[|u1 [|]] [|[|u2 [|]] [|]]]];
    try discriminate Ht1.
  destruct t2 as [|[|v0 [|]] [|[|v1 [|]] [|[|v2 [|]] [|]]]];
    try discriminate Ht2.
  do 3 eexists. repeat split.
  cbn. rows_eq; ring.
Qed.

Lemma getLocalFrameMatrix_compose_witness :
  exists T1 T2 T12,
    getLocalFrameMatrix [[0; -1; 0]; [1; 0; 0]; [0; 0; 1]] [[3]; [2]; [0]]
      = Ok T1 /\
    getLocalFrameMatrix [[1; 0; 0]; [0; 1; 0]; [0; 0; 1]] [[5]; [0]; [0]]
      = Ok T2 /\
    dot T1 T2 = Ok T12 /\
    getLocalFrameMatrix
      (matmul [[0; -1; 0]; [1; 0; 0]; [0; 0; 1]]
              [[1; 0; 0]; [0; 1; 0]; [0; 0; 1]])
      (madd (matmul [[0; -1; 0]; [1; 0; 0]; [0; 0; 1]] [[5]; [0]; [0]])
            [[3]; [2]; [0]]) = Ok T12.
Proof.
  apply (getLocalFrameMatrix_compose
           [[0; -1; 0]; [1; 0; 0]; [0; 0; 1]] [[3]; [2]; [0]]
           [[1; 0; 0]; [0; 1; 0]; [0; 0; 1]] [[5]; [0]; [0]]);
    reflexivity.
Defined.

(** ** forward_kinematics: the poses are rigid transforms *)

Lemma shape44_entries M :
  has_shape 4 4 M = true ->
  exists m00 m01 m02 m03 m10 m11 m12 m13 m20 m21 m22 m23 m30 m31 m32 m33,
    M = [[m00; m01; m02; m03]; [m10; m11; m12; m13];
         [m20; m21; m22; m23]; [m30; m31; m32; m33]].
Proof.
  intros H.
  destruct M as [|[|m00 [|m01 [|m02 [|m03 [|]]]]]
                  [|[|m10 [|m11 [|m12 [|m13 [|]]]]]
                    [|[|m20 [|m21 [|m22 [|m23 [|]]]]]
                      [|[|m30 [|m31 [|m32 [|m33 [|]]]]] [|]]]]];
    try discriminate H.
  now exists m00, m01, m02, m03, m10, m11, m12, m13,
             m20, m21, m22, m23, m30, m31, m32, m33.
Qed.

Lemma rigid_eye : rigid (eye 4).
Proof.
  repeat split. unfold orthonormal. cbn. rows_eq; ring.
Qed.

(** One pass of the loop keeps the running transform rigid. *)
Lemma rigid_step T theta a L :
  rigid T -> rigid (matmul T (local_transform theta a L)).
Proof.
  intros [Hs [Ho Hb]].
  destruct (shape44_entries T Hs)
    as (m00 & m01 & m02 & m03 & m10 & m11 & m12 & m13 &
        m20 & m21 & m22 & m23 & m30 & m31 & m32 & m33 & ->).
  cbn in Hb. injection Hb as -> -> -> ->.
  unfold orthonormal, rotation_block in *. cbn in Ho.
  injection Ho as H00 H01 H02 H10 H11 H12 H20 H21 H22.
  pose proof (cos2_sin2 (radians theta)) as Hcs.
  unfold local_transform, rotation_spec.
  set (c := cos (radians theta)) in *. set (s := sin (radians theta)) in *.
  assert (Hss : s * s = 1 - c * c) by lra.
  split; [destruct a; reflexivity|].
  split.
  - destruct a; unfold orthonormal, rotation_block; cbn; rows_eq.
    all: first [ refine (eq_trans _ H00); ring [Hss]
               | refine (eq_trans _ H01); ring [Hss]
               | refine (eq_trans _ H02); ring [Hss]
               | refine (eq_trans _ H10); ring [Hss]
               | refine (eq_trans _ H11); ring [Hss]
               | refine (eq_trans _ H12); ring [Hss]
               | refine (eq_trans _ H20); ring [Hss]
               | refine (eq_trans _ H21); ring [Hss]
               | refine (eq_trans _ H22); ring [Hss] ].
  - destruct a; cbn; rows_eq; ring.
Qed.

Lemma chain_rigid joints : forall T, rigid T -> Forall rigid (chain joints T).
Proof.
  induction joints as [|[[theta a] L] joints IH]; intros T HT; simpl.
  - constructor.
  - pose proof (rigid_step T theta a L HT) as HT'.
    constructor; auto.
Qed.

(** Whatever the angles and however many there are, every entry of
    [T_list] when the loop ends is a rigid transform: a 4x4 array whose
    rotation block times its transpose is the identity and whose last row
    is [0, 0, 0, 1]. *)
Theorem poses_rigid (Phi_list : list R) (L1 L2 L3 L4 : R) :
  exists T T_list,
    fk_poses Phi_list L1 L2 L3 L4 = Ok (T, T_list) /\
    Forall rigid T_list /\
    rigid T.
Proof.
  do 2 eexists. split; [apply fk_poses_chain|].
  pose proof (chain_rigid (joints_of Phi_list [L1; L2; L3; L4]) (eye 4) rigid_eye)
    as Hc.
  split.
  - constructor; [apply rigid_eye|exact Hc].
  - rewrite <- last_cons with (d := eye 4).
    set (l := eye 4 :: chain _ _).
    assert (Hl : Forall rigid l) by (constructor; [apply rigid_eye|exact Hc]).
    assert (Hne : l <> []) by discriminate.
    clearbody l. rewrite Forall_forall in Hl. apply Hl.
    destruct (exists_last Hne) as [l' [x ->]].
    rewrite last_last. apply in_or_app. right. now left.
Qed.

(** The four poses forward_kinematics returns are rigid transforms. *)
Theorem forward_kinematics_rigid (Phi_list : list R) (L1 L2 L3 L4 : R) :
  (4 <= length Phi_list)%nat ->
  exists T_1 T_2 T_3 T_4 e,
    forward_kinematics Phi_list L1 L2 L3 L4 = Ok (T_1, T_2, T_3, T_4, e) /\
    rigid T_1 /\ rigid T_2 /\ rigid T_3 /\ rigid T_4.
Proof.
  intros Hlen.
  destruct Phi_list as [|a1 [|a2 [|a3 [|a4 rest]]]]; simpl in Hlen; try lia.
  destruct (forward_kinematics_four a1 a2 a3 a4 rest L1 L2 L3 L4) as [_ H].
  cbv zeta in H. do 5 eexists. split; [exact H|].
  pose proof (rigid_step _ a1 Z L1 rigid_eye) as H1.
  pose proof (rigid_step _ a2 Y L2 H1) as H2.
  pose proof (rigid_step _ a3 X L3 H2) as H3.
  pose proof (rigid_step _ a4 Z L4 H3) as H4.
  auto.
Qed.

Lemma forward_kinematics_rigid_witness :
  exists T_1 T_2 T_3 T_4 e,
    forward_kinematics [45; 30; 60; 20] 4 3 2 2 = Ok (T_1, T_2, T_3, T_4, e) /\
    rigid T_1 /\ rigid T_2 /\ rigid T_3 /\ rigid T_4.
Proof.
  apply (forward_kinematics_rigid [45; 30; 60; 20] 4 3 2 2).
  simpl. lia.
Defined.

(** ** forward_kinematics: where the frames are *)

Lemma matmul_eye_local_transform theta a L :
  matmul (eye 4) (local_transform theta a L) = local_transform theta a L.
Proof. destruct a; cbn; rows_eq; ring. Qed.

(** The first pose returned is the frame getLocalFrameMatrix builds from
    the rotation of the first angle about z and the column (L1, 0, 0). *)
Theorem first_pose_is_local_frame (Phi_list : list R) (L1 L2 L3 L4 : R) :
  (4 <= length Phi_list)%nat ->
  exists T_1 T_2 T_3 T_4 e R_01,
    forward_kinematics Phi_list L1 L2 L3 L4 = Ok (T_1, T_2, T_3, T_4, e) /\
    RotationMatrix (nth 0 Phi_list 0) "z" = Ok R_01 /\
    getLocalFrameMatrix R_01 [[L1]; [0]; [0]] = Ok T_1.
Proof.
  intros Hlen.
  destruct Phi_list as [|a1 [|a2 [|a3 [|a4 rest]]]]; simpl in Hlen; try lia.
  destruct (forward_kinematics_four a1 a2 a3 a4 rest L1 L2 L3 L4) as [_ H].
  cbv zeta in H. rewrite matmul_eye_local_transform in H.
  do 6 eexists. split; [exact H|].
  split; [apply (RotationMatrix_axis a1 Z)|].
  apply local_transform_getLocalFrameMatrix.
Qed.

Lemma first_pose_is_local_frame_witness :
  exists T_1 T_2 T_3 T_4 e R_01,
    forward_kinematics [45; 30; 60; 20] 4 3 2 2 = Ok (T_1, T_2, T_3, T_4, e) /\
    RotationMatrix 45 "z" = Ok R_01 /\
    getLocalFrameMatrix R_01 [[4]; [0]; [0]] = Ok T_1.
Proof.
  apply (first_pose_is_local_frame [45; 30; 60; 20] 4 3 2 2).
  simpl. lia.
Defined.

(** The position returned is the origin of the fourth pose returned, and
    it is a function of the first two angles only: with [c1, s1] and
    [c2, s2] the cosine and sine of the first and second angle, it is
    (L1 + c1 L2 + c1 c2 (L3 + L4), s1 L2 + s1 c2 (L3 + L4), - s2 (L3 + L4)).
    The third and fourth angle, and any angle after them, do not move
    it. *)
Theorem end_effector_closed_form (a1 a2 a3 a4 : R) (rest : list R)
    (L1 L2 L3 L4 : R) :
  let c1 := cos (radians a1) in
  let s1 := sin (radians a1) in
  let c2 := cos (radians a2) in
  let s2 := sin (radians a2) in
  exists T_1 T_2 T_3 T_4 e,
    forward_kinematics (a1 :: a2 :: a3 :: a4 :: rest) L1 L2 L3 L4 =
      Ok (T_1, T_2, T_3, T_4, e) /\
    e = origin T_4 /\
    e = [L1 + c1 * L2 + c1 * c2 * (L3 + L4);
         s1 * L2 + s1 * c2 * (L3 + L4);
         - s2 * (L3 + L4)].
Proof.
  intros c1 s1 c2 s2.
  destruct (forward_kinematics_four a1 a2 a3 a4 rest L1 L2 L3 L4) as [_ H].
  cbv zeta in H. do 5 eexists. split; [exact H|].
  split; [reflexivity|].
  unfold local_transform, rotation_spec. fold c1 s1 c2 s2.
  generalize (cos (radians a3)) (sin (radians a3))
             (cos (radians a4)) (sin (radians a4)).
  intros c3 s3 c4 s4. cbn. rows_eq; ring.
Qed.

(** With the first four angles 0 the arm lies along world x: the four
    poses are the pure translations by (L1, 0, 0), (L1+L2, 0, 0),
    (L1+L2+L3, 0, 0) and (L1+L2+L3+L4, 0, 0), and the last is the position
    returned. *)
Theorem zero_angles_straight_arm (rest : list R) (L1 L2 L3 L4 : R) :
  forward_kinematics (0 :: 0 :: 0 :: 0 :: rest) L1 L2 L3 L4 =
    Ok (frame_of (eye 3) [L1; 0; 0],
        frame_of (eye 3) [L1 + L2; 0; 0],
        frame_of (eye 3) [L1 + L2 + L3; 0; 0],
        frame_of (eye 3) [L1 + L2 + L3 + L4; 0; 0],
        [L1 + L2 + L3 + L4; 0; 0]).
Proof.
  destruct (forward_kinematics_four 0 0 0 0 rest L1 L2 L3 L4) as [_ H].
  cbv zeta in H. rewrite H.
  unfold local_transform, rotation_spec. rewrite radians_0, cos_0, sin_0.
  cbn. rows_eq; ring.
Qed.

(** The links keep their lengths: the origin of the first pose is at
    distance L1 from the world origin, and the origin of each later pose at
    distance L_i from the origin of the pose before it (stated on the
    squares of the distances). *)
Theorem link_lengths_kept (a1 a2 a3 a4 : R) (rest : list R) (L1 L2 L3 L4 : R) :
  exists T_1 T_2 T_3 T_4 e,
    forward_kinematics (a1 :: a2 :: a3 :: a4 :: rest) L1 L2 L3 L4 =
      Ok (T_1, T_2, T_3, T_4, e) /\
    dist2 (origin T_1) [0; 0; 0] = L1 * L1 /\
    dist2 (origin T_2) (origin T_1) = L2 * L2 /\
    dist2 (origin T_3) (origin T_2) = L3 * L3 /\
    dist2 (origin T_4) (origin T_3) = L4 * L4.
Proof.
  destruct (forward_kinematics_four a1 a2 a3 a4 rest L1 L2 L3 L4) as [_ H].
  cbv zeta in H. do 5 eexists. split; [exact H|].
  pose proof (cos2_sin2 (radians a1)) as H1.
  pose proof (cos2_sin2 (radians a2)) as H2.
  unfold local_transform, rotation_spec.
  set (c1 := cos (radians a1)) in *. set (s1 := sin (radians a1)) in *.
  set (c2 := cos (radians a2)) in *. set (s2 := sin (radians a2)) in *.
  assert (Hs1 : s1 * s1 = 1 - c1 * c1) by lra.
  assert (Hs2 : s2 * s2 = 1 - c2 * c2) by lra.
  generalize (cos (radians a3)) (sin (radians a3))
             (cos (radians a4)) (sin (radians a4)).
  intros c3 s3 c4 s4. cbn.
  repeat split; ring [Hs1 Hs2].
Qed.

(** ** main: the frames of one pass of the animation loop *)

Lemma frame_of_getLocalFrameMatrix theta a x y z :
  getLocalFrameMatrix (rotation_spec theta a) [[x]; [y]; [z]] =
  Ok (frame_of (rotation_spec theta a) [x; y; z]).
Proof. destruct a; reflexivity. Qed.

Lemma frame_of_rigid theta a x y z :
  rigid (frame_of (rotation_spec theta a) [x; y; z]).
Proof.
  pose proof (cos2_sin2 (radians theta)) as H.
  unfold rotation_spec.
  set (c := cos (radians theta)) in *. set (s := sin (radians theta)) in *.
  destruct a; repeat split; unfold orthonormal; cbn; rows_eq; nra.
Qed.

(** What one pass computes, in terms of the frames of its four joints. *)
Lemma main_loop_body_frames phi :
  let T_01 := frame_of (rotation_spec phi Y) [3; 2; 0] in
  let T_12 := local_transform (phi / 2) Z 5 in
  let T_23 := local_transform (phi / 2) Y 8 in
  let T_34 := local_transform (- phi / 2) Z 5 in
  main_loop_body phi =
  Ok {| Frame1 := T_01;
        Frame2 := matmul T_01 T_12;
        Frame3 := matmul (matmul T_01 T_12) T_23;
        Frame4 := T_34;
        T_02 := matmul (matmul (matmul T_01 T_12) T_23) T_34 |}.
Proof.
  intros T_01 T_12 T_23 T_34. unfold main_loop_body.
  pose proof (RotationMatrix_axis phi Y) as E1.
  pose proof (RotationMatrix_axis (phi / 2) Z) as E2.
  pose proof (RotationMatrix_axis (phi / 2) Y) as E3.
  pose proof (RotationMatrix_axis (- phi / 2) Z) as E4.
  cbn [axis_name] in E1, E2, E3, E4.
  rewrite E1, E2, E3, E4. cbn [bind].
  rewrite frame_of_getLocalFrameMatrix, !local_transform_getLocalFrameMatrix.
  fold T_01 T_12 T_23 T_34. cbn [bind].
  assert (H1 : rigid T_01) by apply frame_of_rigid.
  pose proof (rigid_step _ (phi / 2) Z 5 H1) as H2.
  pose proof (rigid_step _ (phi / 2) Y 8 H2) as H3.
  fold T_12 in H2. fold T_12 T_23 in H3.
  destruct (dot_square 3 T_01 T_12 (proj1 H1)
              (local_transform_shape _ _ _)) as [-> _].
  cbn [bind].
  destruct (dot_square 3 _ T_23 (proj1 H2)
              (local_transform_shape _ _ _)) as [-> _].
  cbn [bind].
  destruct (dot_square 3 _ T_34 (proj1 H3)
              (local_transform_shape _ _ _)) as [-> _].
  reflexivity.
Qed.

(** For every value of [phi] a pass of the loop raises nothing, and every
    matrix it hands to [apply_transform], like the last [T_02], is a rigid
    transform. *)
Theorem main_loop_body_rigid (phi : R) :
  exists f,
    main_loop_body phi = Ok f /\
    rigid (Frame1 f) /\ rigid (Frame2 f) /\ rigid (Frame3 f) /\
    rigid (Frame4 f) /\ rigid (T_02 f).
Proof.
  eexists. split; [apply main_loop_body_frames|]. cbn [Frame1 Frame2 Frame3 Frame4 T_02].
  assert (H1 : rigid (frame_of (rotation_spec phi Y) [3; 2; 0]))
    by apply frame_of_rigid.
  pose proof (rigid_step _ (phi / 2) Z 5 H1) as H2.
  pose proof (rigid_step _ (phi / 2) Y 8 H2) as H3.
  pose proof (rigid_step _ (- phi / 2) Z 5 H3) as H4.
  pose proof (rigid_step _ (- phi / 2) Z 5 rigid_eye) as H5.
  rewrite matmul_eye_local_transform in H5.
  auto 10.
Qed.

(** Where the pass puts the frames: Frame1 at (3, 2, 0) for every [phi];
    the origins of Frame2 and Frame3 at distances 5 (L1) and 8 (L2) from
    the origin of the frame before; Frame4 is given its local matrix
    [T_34] alone, so its origin is (5, 0, 0) for every [phi], while the
    product of the four matrices, bound to [T_02] last, has its origin at
    distance 5 (L3) from that of Frame3. *)
Theorem main_loop_body_origins (phi : R) :
  exists f,
    main_loop_body phi = Ok f /\
    origin (Frame1 f) = [3; 2; 0] /\
    dist2 (origin (Frame2 f)) (origin (Frame1 f)) = 5 * 5 /\
    dist2 (origin (Frame3 f)) (origin (Frame2 f)) = 8 * 8 /\
    origin (Frame4 f) = [5; 0; 0] /\
    dot (Frame3 f) (Frame4 f) = Ok (T_02 f) /\
    dist2 (origin (T_02 f)) (origin (Frame3 f)) = 5 * 5.
Proof.
  eexists. split; [apply main_loop_body_frames|].
  cbn [Frame1 Frame2 Frame3 Frame4 T_02].
  assert (H1 : rigid (frame_of (rotation_spec phi Y) [3; 2; 0]))
    by apply frame_of_rigid.
  pose proof (rigid_step _ (phi / 2) Z 5 H1) as H2.
  pose proof (rigid_step _ (phi / 2) Y 8 H2) as H3.
  destruct (dot_square 3 _ (local_transform (- phi / 2) Z 5) (proj1 H3)
              (local_transform_shape _ _ _)) as [Hdot _].
  clear H1 H2 H3.
  pose proof (cos2_sin2 (radians phi)) as H1.
  pose proof (cos2_sin2 (radians (phi / 2))) as H2.
  unfold local_transform, rotation_spec in *.
  set (c1 := cos (radians phi)) in *. set (s1 := sin (radians phi)) in *.
  set (c2 := cos (radians (phi / 2))) in *.
  set (s2 := sin (radians (phi / 2))) in *.
  assert (Hs1 : s1 * s1 = 1 - c1 * c1) by lra.
  assert (Hs2 : s2 * s2 = 1 - c2 * c2) by lra.
  revert Hdot.
  generalize (cos (radians (- phi / 2))) (sin (radians (- phi / 2))).
  intros c4 s4 Hdot.
  split; [reflexivity|].
  split; [cbn; ring [Hs1 Hs2]|].
  split; [cbn; ring [Hs1 Hs2]|].
  split; [cbn; rows_eq; ring|].
  split; [exact Hdot|].
  cbn; ring [Hs1 Hs2].
Qed.

(** The animation repeats: [phi + 720] gives the matrices of [phi]. *)
Theorem main_loop_body_period (phi : R) :
  main_loop_body (phi + 720) = main_loop_body phi.
Proof.
  unfold main_loop_body. cbv zeta.
  rewrite (RotationMatrix_turns phi (phi + 720) "y" 2) by (simpl; ring).
  rewrite (RotationMatrix_turns (phi / 2) ((phi + 720) / 2) "z" 1)
    by (simpl; field).
  rewrite (RotationMatrix_turns (phi / 2) ((phi + 720) / 2) "y" 1)
    by (simpl; field).
  rewrite <- (RotationMatrix_turns (- (phi + 720) / 2) (- phi / 2) "z" 1)
    by (simpl; field).
  reflexivity.
Qed.
